(** * do-notation over a state-threading monad

    A model of [examples/raiseexceptionexample.py]: the [StateMonad] class with
    its [flat_map], the [collect_even_numbers] action, and the [example]
    computation written with [yield] under the [@do()] decorator.

    Python features kept by the model:
    - values are dynamically typed: a suspension point may yield an [int]
      where a monad is expected, and attribute lookup then fails;
    - calling a Python function may raise and may have side effects: a
      computation is a function of the world that returns an outcome and the
      world it leaves behind;
    - [set] objects are mutable and handled by reference: they live in a
      heap, and [state | {num}] allocates a new object. *)

From stdpp Require Import base strings list gmap.

Local Open Scope Z_scope.

(** ** Exceptions and computations *)

(** The exceptions that can surface: the two the interpreter raises on a
    badly typed operation, and any other exception, named by its class. *)
Inductive exn : Type :=
| AttributeError (type_name attr : string)
| TypeError (msg : string)
| Exception (name : string).

(** A computation run in world [w] ends with an exception or a result, and
    leaves a world behind in both cases. *)
Definition M (W A : Type) : Type := W → (exn + A) * W.

Definition raise {W A : Type} (e : exn) : M W A := λ w, (inl e, w).

#[global] Instance M_ret {W : Type} : MRet (M W) := λ A a w, (inr a, w).

#[global] Instance M_bind {W : Type} : MBind (M W) := λ A B k c w,
  match c w with
  | (inl e, w') => (inl e, w')
  | (inr a, w') => k a w'
  end.

(** ** The StateMonad class *)

Section StateMonad.
Context {W St : Type}.

Local Unset Elimination Schemes.

(** Python objects that reach a suspension point or a continuation: plain
    integers and [StateMonad] instances.  [StateMonad.__init__] stores [func],
    a callable from a state to a [(state, value)] pair. *)
Inductive pyobj : Type :=
| PyInt (n : Z)
| PyMonad (m : StateMonad)
with StateMonad : Type :=
| StateMonad_init (func : St → M W (St * pyobj)).

(** [self.func] *)
Definition func (self : StateMonad) : St → M W (St * pyobj) :=
  match self with StateMonad_init func => func end.

(** [type(v).__name__], as it appears in an [AttributeError] *)
Definition type_name (v : pyobj) : string :=
  match v with
  | PyInt _ => "int"
  | PyMonad _ => "StateMonad"
  end.

(** [v.func(state)] on an arbitrary object [v] *)
Definition call_func (v : pyobj) (state : St) : M W (St * pyobj) :=
  match v with
  | PyMonad m => func m state
  | _ => raise (AttributeError (type_name v) "func")
  end.

(** [StateMonad.flat_map]:
<<
    def flat_map(self, func):
        def next(state):
            n_state, value = self.func(state)
            return func(value).func(n_state)
        return StateMonad(func=next)
>>
    The continuation (the source's parameter [func]) is [f] here. *)
Definition flat_map (self : StateMonad) (f : pyobj → M W pyobj) : StateMonad :=
  let next (state : St) : M W (St * pyobj) :=
    '(n_state, value) ← func self state;
    r ← f value;
    call_func r n_state in
  StateMonad_init next.

(** [v.flat_map(f)] on an arbitrary object [v]: the method exists on a
    [StateMonad] only. *)
Definition call_flat_map (v : pyobj) (f : pyobj → M W pyobj) : M W pyobj :=
  match v with
  | PyMonad m => mret (PyMonad (flat_map m f))
  | _ => raise (AttributeError (type_name v) "flat_map")
  end.

(** ** The do-runner *)

(** Modelled from the spec: the suspendable computation a generator function
    describes.  The [donotation] package is not part of the sources; the spec
    (section 4.2) describes a computation as a sequence of (suspension point
    value, rest of the computation) pairs ending in a final return.  The rest
    of the computation is resumed with the plain value and runs the body up
    to its next suspension point, which may raise or have effects. *)
Inductive generator : Type :=
| Return (v : pyobj)
| Yield (operand : pyobj) (resume : pyobj → M W generator).

(** Modelled from the spec: the do-runner (section 4.2, steps 1 to 4).  At a
    suspension point it takes the operand, requires it to expose the bind
    operation (failing at once otherwise), builds the continuation that
    re-enters the body after the suspension point and applies the same
    algorithm to the remainder, and calls the operand's bind operation with
    it.  The final return value is the base case and is passed on as it is. *)
Fixpoint do_run (g : generator) : M W pyobj :=
  match g with
  | Return v => mret v
  | Yield operand resume =>
      call_flat_map operand (λ x, g' ← resume x; do_run g')
  end.

(** Modelled from the spec: the [@do()] decorator (section 4.3).  Calling the
    decorated function hands the body's computation to the do-runner and
    returns the composed value. *)
Definition do {A : Type} (body : A → M W generator) : A → M W pyobj :=
  λ a, g ← body a; do_run g.

(** Executing the composed value of a do-block from [state]:
    [composed.func(state)]. *)
Definition execute (g : generator) (state : St) : M W (St * pyobj) :=
  c ← do_run g; call_func c state.

End StateMonad.

Arguments pyobj : clear implicits.
Arguments StateMonad : clear implicits.
Arguments generator : clear implicits.

(** The type of a continuation: a callable from the plain value to the next
    object. *)
Abbreviation continuation W St := (pyobj W St → M W (pyobj W St)).

(** ** Notions the properties are stated with *)

Section Notions.
Context {W St : Type}.

(** Two monads behave alike when executing them from the same state in the
    same world gives the same outcome and leaves the same world. *)
Definition exec_eq (a b : StateMonad W St) : Prop :=
  ∀ s w, func a s w = func b s w.

(** Two continuations behave alike when, called with the same value in the
    same world, they leave the same world and raise the same exception,
    return the same integer, or return monads that behave alike. *)
Definition cont_eq (f f' : continuation W St) : Prop :=
  ∀ x w,
    (f x w).2 = (f' x w).2 ∧
    match (f x w).1, (f' x w).1 with
    | inl e, inl e' => e = e'
    | inr (PyInt n), inr (PyInt n') => n = n'
    | inr (PyMonad a), inr (PyMonad a') => exec_eq a a'
    | _, _ => False
    end.

(** A continuation that hands back a [StateMonad] or raises, as [flat_map]
    expects of its argument: it never returns a plain integer. *)
Definition returns_monad (f : continuation W St) : Prop :=
  ∀ v w n w', f v w ≠ (inr (PyInt n), w').

(** [m.flat_map(f1).flat_map(f2)...flat_map(fn)] *)
Definition chain_left (m : StateMonad W St)
    (fs : list (continuation W St)) : StateMonad W St :=
  foldl flat_map m fs.

(** [lambda x: f(x).flat_map(lambda y: g(y).flat_map(...))] *)
Fixpoint nest (f : continuation W St)
    (fs : list (continuation W St)) : continuation W St :=
  match fs with
  | [] => f
  | g :: gs => λ x, r ← f x; call_flat_map r (nest g gs)
  end.

(** [m.flat_map(lambda x: f1(x).flat_map(lambda y: f2(y).flat_map(...)))] *)
Definition chain_right (m : StateMonad W St)
    (fs : list (continuation W St)) : StateMonad W St :=
  match fs with
  | [] => m
  | f :: gs => flat_map m (nest f gs)
  end.

(** Modelled from the spec: a do-block with suspension points in a row, each
    operand computed from the value the previous point was resumed with:
<<
    x0 = yield m
    x1 = yield f1(x0)
    ...
    return fn(x)
>>
    [block f fs x] is the body from [f(x)] on. *)
Fixpoint block (f : continuation W St)
    (fs : list (continuation W St)) (x : pyobj W St) :
    M W (generator W St) :=
  match fs with
  | [] => v ← f x; mret (Return v)
  | g :: gs => v ← f x; mret (Yield v (block g gs))
  end.

Definition do_block (m : StateMonad W St)
    (fs : list (continuation W St)) : generator W St :=
  match fs with
  | [] => Return (PyMonad m)
  | f :: gs => Yield (PyMonad m) (block f gs)
  end.

(** [reaches g s w g' s' w']: executing the composed value of the do-block
    [g] from state [s] in world [w] runs the suspension points in front of
    the point [g'] without an exception, and arrives at [g'] with state [s']
    in world [w']. *)
Inductive reaches :
  generator W St → St → W → generator W St → St → W → Prop :=
| reaches_here g s w : reaches g s w g s w
| reaches_next m resume s w n_state x w1 g1 w2 g' s' w' :
    func m s w = (inr (n_state, x), w1) →
    resume x w1 = (inr g1, w2) →
    reaches g1 n_state w2 g' s' w' →
    reaches (Yield (PyMonad m) resume) s w g' s' w'.

(** A computation stays within [R] when the world it leaves is related by
    [R] to the world it started in, whatever its outcome. *)
Definition steps_in {A : Type} (R : relation W) (c : M W A) : Prop :=
  ∀ w, R w (c w).2.

Definition monad_steps_in (R : relation W) (m : StateMonad W St) : Prop :=
  ∀ s, steps_in R (func m s).

(** The continuation stays within [R], and so does every monad it returns. *)
Definition cont_steps_in (R : relation W)
    (f : continuation W St) : Prop :=
  ∀ v, steps_in R (f v) ∧
       ∀ w m' w', f v w = (inr (PyMonad m'), w') → monad_steps_in R m'.

End Notions.

(** ** The example: collecting even numbers *)

(** The state of the example is a Python [set] of integers.  Sets are
    objects: the heap holds their contents by address, and a state is the
    address of one. *)
Abbreviation loc := nat (only parsing).
Abbreviation heap := (list (gset Z)) (only parsing).

(** [state | other] for a set [state]: the union, as a new set object
    ([other] is a set literal, a temporary of which the contents alone
    matter).  Every state of an execution is the address of a set; an
    address that holds none stands for no Python object, the model stops
    there with an exception and an unchanged heap, and no property is stated
    about that case. *)
Definition set_or (state : loc) (other : gset Z) : M heap loc := λ h,
  match h !! state with
  | Some X => (inr (length h), h ++ [X ∪ other])
  | None => (inl (TypeError "unsupported operand type(s) for |"), h)
  end.

(** [collect_even_numbers]:
<<
    def collect_even_numbers(num: int):
        def func(state: set):
            if num % 2 == 0:
                state = state | {num}
            return state, num
        return StateMonad(func)
>> *)
Definition collect_even_numbers (num : Z) : StateMonad heap loc :=
  let func (state : loc) : M heap (loc * pyobj heap loc) :=
    state ← (if bool_decide (num `mod` 2 = 0)
             then set_or state {[num]}
             else mret state);
    mret (state, PyInt num) in
  StateMonad_init func.

(** [v + k] for an integer literal [k] and an arbitrary object [v] *)
Definition add_int (v : pyobj heap loc) (k : Z) : M heap Z :=
  match v with
  | PyInt n => mret (n + k)
  | _ => raise (TypeError "unsupported operand type(s) for +")
  end.

(** The body of [example], as the generator function describes it:
<<
    def example(init):
        x = yield collect_even_numbers(init+1)
        y = yield x+1
        z = yield collect_even_numbers(y+1)
        return collect_even_numbers(z+1)
>> *)
Definition example_body (init : Z) : M heap (generator heap loc) :=
  mret (Yield (PyMonad (collect_even_numbers (init + 1))) (λ x,
    x1 ← add_int x 1;
    mret (Yield (PyInt x1) (λ y,
      y1 ← add_int y 1;
      mret (Yield (PyMonad (collect_even_numbers y1)) (λ z,
        z1 ← add_int z 1;
        mret (Return (PyMonad (collect_even_numbers z1))))))))).

(** [example], decorated with [@do()] *)
Definition example : Z → M heap (pyobj heap loc) := do example_body.

(** [set[int]()]: a new, empty set *)
Definition new_set : M heap loc := λ h, (inr (length h), h ++ [∅]).

(** The module's top level, up to the call:
<<
    state = set[int]()
    state, value = example(3).func(state)
>> *)
Definition script : M heap (loc * pyobj heap loc) :=
  state ← new_set;
  composed ← example 3;
  call_func composed state.

(** Modelled from the spec: the non-error variant of the example (section 8,
    happy path), which suspends on [collect_even_numbers(init+1)], binds the
    result plus one to [y] without suspending, and goes on to the final
    [collect_even_numbers(z+1)]. *)
Definition example_non_error_body (init : Z) : M heap (generator heap loc) :=
  mret (Yield (PyMonad (collect_even_numbers (init + 1))) (λ x,
    y ← add_int x 1;
    mret (Yield (PyMonad (collect_even_numbers (y + 1))) (λ z,
      z1 ← add_int z 1;
      mret (Return (PyMonad (collect_even_numbers z1))))))).

Definition example_non_error : Z → M heap (pyobj heap loc) :=
  do example_non_error_body.

(** Modelled from the spec: the other reading of the non-error variant, in
    which the second suspension point wraps its operand and suspends on
    [collect_even_numbers(x+1)], so that every operand is a monad. *)
Definition example_conforming_body (init : Z) :
    M heap (generator heap loc) :=
  mret (Yield (PyMonad (collect_even_numbers (init + 1))) (λ x,
    x1 ← add_int x 1;
    mret (Yield (PyMonad (collect_even_numbers x1)) (λ y,
      y1 ← add_int y 1;
      mret (Yield (PyMonad (collect_even_numbers y1)) (λ z,
        z1 ← add_int z 1;
        mret (Return (PyMonad (collect_even_numbers z1))))))))).

Definition example_conforming : Z → M heap (pyobj heap loc) :=
  do example_conforming_body.

(** The [(state, value)] pair an execution returns, as [==] compares it: the
    contents of the returned set and the value; or the exception raised. *)
Definition observe (r : (exn + loc * pyobj heap loc) * heap) :
    exn + option (gset Z) * pyobj heap loc :=
  match r with
  | (inl e, _) => inl e
  | (inr (state, value), h) => inr (h !! state, value)
  end.

(** The outcomes of two executions agree: the same exception, or the same
    value with states of the same contents, which include [X]. *)
Definition agree (X : gset Z) (r1 r2 : (exn + loc * pyobj heap loc) * heap) :
    Prop :=
  match r1.1, r2.1 with
  | inl e1, inl e2 => e1 = e2
  | inr (l1, v1), inr (l2, v2) =>
      v1 = v2 ∧ ∃ Y, r1.2 !! l1 = Some Y ∧ r2.2 !! l2 = Some Y ∧ X ⊆ Y
  | _, _ => False
  end.

(** The composed values of the example's family: [collect_even_numbers] and
    [flat_map] over it with continuations that compute from the value they
    are given alone (their outcome [r v] neither depends on the heap nor
    changes it). *)
Inductive collector : StateMonad heap loc → Prop :=
| collector_base num : collector (collect_even_numbers num)
| collector_bind m f (r : pyobj heap loc → exn + pyobj heap loc) :
    collector m →
    (∀ v h, f v h = (r v, h)) →
    (∀ v m', r v = inr (PyMonad m') → collector m') →
    collector (flat_map m f).

(** A monad whose [func] has an effect beside the state it threads: it
    counts its calls in the world and returns the count.
<<
    calls = itertools.count()
    ticket = StateMonad(lambda state: (state, next(calls)))
>> *)
Definition ticket : StateMonad nat unit :=
  StateMonad_init (λ state calls,
    (inr (state, PyInt (Z.of_nat calls)), S calls)).

(** [lambda v: StateMonad(lambda state: (state, v))] *)
Definition unit_monad {W St : Type} (v : pyobj W St) : M W (pyobj W St) :=
  mret (PyMonad (StateMonad_init (λ state, mret (state, v)))).

(** [lambda v: collect_even_numbers(6)] *)
Definition then_collect_6 : continuation heap loc :=
  λ _, mret (PyMonad (collect_even_numbers 6)).

(** [collect_even_numbers(4).flat_map(lambda v: collect_even_numbers(6))] *)
Definition collect_4_then_6 : StateMonad heap loc :=
  flat_map (collect_even_numbers 4) then_collect_6.

(** [lambda _: collect_even_numbers(k)] *)
Definition then_collect (k : Z) : continuation heap loc :=
  λ _, mret (PyMonad (collect_even_numbers k)).

(** Collecting the numbers [n :: ns] one after the other:
    [collect_even_numbers(n).flat_map(lambda _: collect_even_numbers(n1))
    .flat_map(lambda _: collect_even_numbers(n2))...] *)
Definition collect_all (n : Z) (ns : list Z) : StateMonad heap loc :=
  foldl (λ m k, flat_map m (then_collect k)) (collect_even_numbers n) ns.

(** The even numbers of a list, as a set. *)
Definition evens (ns : list Z) : gset Z :=
  list_to_set (filter (λ k, Z.even k = true) ns).

(** * Properties *)

(** Unfolds the monad operations in the goal. *)
Ltac unfold_M :=
  unfold mbind, M_bind, mret, M_ret, raise in *.

(** ** flat_map *)

Section FlatMap.
Context {W St : Type}.
Implicit Types (m : StateMonad W St) (f g : continuation W St).
Implicit Types (s : St) (w : W) (e : exn).

Lemma func_flat_map m f s :
  func (flat_map m f) s =
    ('(n_state, value) ← func m s; r ← f value; call_func r n_state).
Proof. reflexivity. Qed.

Lemma flat_map_raises_first m f s w e w1 :
  func m s w = (inl e, w1) →
  func (flat_map m f) s w = (inl e, w1).
Proof. intros Hm. rewrite func_flat_map. unfold_M. by rewrite Hm. Qed.

Lemma flat_map_step m f s w n_state value w1 :
  func m s w = (inr (n_state, value), w1) →
  func (flat_map m f) s w = (r ← f value; call_func r n_state) w1.
Proof. intros Hm. rewrite func_flat_map. unfold_M. by rewrite Hm. Qed.

(** C1: executing [m.flat_map(f)] on [s] executes [m]'s own [func] on [s]
    for an updated state [n_state] and a plain value, applies [f] to that
    value for the next monad, executes the next monad's [func] on [n_state]
    in the world the first two steps left, and returns what that call
    returns. *)
Theorem flat_map_executes m f s w n_state value w1 m' w2 :
  func m s w = (inr (n_state, value), w1) →
  f value w1 = (inr (PyMonad m'), w2) →
  func (flat_map m f) s w = func m' n_state w2.
Proof.
  intros Hm Hf. rewrite (flat_map_step _ _ _ _ _ _ _ Hm).
  unfold_M. by rewrite Hf.
Qed.

(** C6: calling [flat_map] on a [StateMonad] returns the new monad and
    leaves the world as it is, whatever the receiver's [func] and the
    continuation would do when called; the computation is the [func] of the
    returned monad and runs when that is called with a state. *)
Theorem flat_map_is_inert m f w :
  call_flat_map (PyMonad m) f w = (inr (PyMonad (flat_map m f)), w) ∧
  ∀ s w', func (flat_map m f) s w' =
    match func m s w' with
    | (inl e, w1) => (inl e, w1)
    | (inr (n_state, value), w1) =>
        match f value w1 with
        | (inl e, w2) => (inl e, w2)
        | (inr r, w2) => call_func r n_state w2
        end
    end.
Proof.
  split; [reflexivity|]. intros s w'. rewrite func_flat_map. unfold_M.
  destruct (func m s w') as [[e|[n_state value]] w1]; reflexivity.
Qed.

(** C8: an exception raised by the continuation, or by executing the monad
    the continuation returns, is the outcome of executing [m.flat_map(f)],
    with the world as the raising call left it. *)
Theorem flat_map_propagates m f s w n_state value w1 e w2 :
  func m s w = (inr (n_state, value), w1) →
  (f value w1 = (inl e, w2) ∨
   ∃ m' w', f value w1 = (inr (PyMonad m'), w') ∧
            func m' n_state w' = (inl e, w2)) →
  func (flat_map m f) s w = (inl e, w2).
Proof.
  intros Hm Hf. rewrite (flat_map_step _ _ _ _ _ _ _ Hm). unfold_M.
  destruct Hf as [Hf|(m' & w' & Hf & Hm')]; rewrite Hf; [reflexivity|].
  exact Hm'.
Qed.

(** *** Associativity *)

Lemma cont_eq_refl f : cont_eq f f.
Proof.
  intros x w. split; [done|]. by destruct (f x w) as [[e|[n|a]] w1].
Qed.

Lemma flat_map_ext m m' f f' :
  exec_eq m m' → cont_eq f f' → exec_eq (flat_map m f) (flat_map m' f').
Proof.
  intros Hm Hf s w. rewrite !func_flat_map. unfold_M. rewrite (Hm s w).
  destruct (func m' s w) as [[e|[n_state value]] w1]; [done|].
  destruct (Hf value w1) as [Hw Hr].
  destruct (f value w1) as [[e|[n|a]] w2],
    (f' value w1) as [[e'|[n'|a']] w2']; simpl in *; subst; done.
Qed.

Lemma flat_map_assoc m f g :
  returns_monad f →
  exec_eq (flat_map (flat_map m f) g)
          (flat_map m (λ x, r ← f x; call_flat_map r g)).
Proof.
  intros Hf s w. rewrite !func_flat_map. unfold_M.
  destruct (func m s w) as [[e|[n_state value]] w1]; [reflexivity|].
  destruct (f value w1) as [[e|[n|m']] w2] eqn:Hfv; try reflexivity.
  destruct (Hf _ _ _ _ Hfv).
Qed.

(** When [f] does return a plain integer, both nestings raise an
    [AttributeError], for the attribute each of them looks up. *)
Lemma flat_map_assoc_plain m f g s w n_state value w1 n w2 :
  func m s w = (inr (n_state, value), w1) →
  f value w1 = (inr (PyInt n), w2) →
  func (flat_map (flat_map m f) g) s w =
    (inl (AttributeError "int" "func"), w2) ∧
  func (flat_map m (λ x, r ← f x; call_flat_map r g)) s w =
    (inl (AttributeError "int" "flat_map"), w2).
Proof.
  intros Hm Hf. rewrite !func_flat_map. unfold_M. by rewrite Hm, Hf.
Qed.

Lemma chain_left_ext m m' fs :
  exec_eq m m' → exec_eq (chain_left m fs) (chain_left m' fs).
Proof.
  revert m m'. induction fs as [|f fs IH]; intros m m' Hm; [exact Hm|].
  apply IH, flat_map_ext; [exact Hm|apply cont_eq_refl].
Qed.

Lemma chain_right_left m fs :
  Forall returns_monad fs → exec_eq (chain_right m fs) (chain_left m fs).
Proof.
  intros Hfs. revert m. induction Hfs as [|f gs Hf Hgs IH]; intros m s w.
  - reflexivity.
  - change (chain_left m (f :: gs)) with (chain_left (flat_map m f) gs).
    rewrite <- IH. destruct gs as [|g gs]; [reflexivity|].
    symmetry. apply (flat_map_assoc m f (nest g gs) Hf).
Qed.

Lemma block_nest f fs :
  cont_eq (λ x, g' ← block f fs x; do_run g') (nest f fs).
Proof.
  revert f. induction fs as [|g gs IH]; intros f x w; simpl; unfold_M;
    destruct (f x w) as [[e|[n|a]] w1]; simpl; try done.
  split; [done|]. apply flat_map_ext; [done|apply IH].
Qed.

Lemma do_run_do_block m fs :
  ∃ c, (∀ w, do_run (do_block m fs) w = (inr (PyMonad c), w)) ∧
       exec_eq c (chain_right m fs).
Proof.
  destruct fs as [|f gs]; (eexists; split; [reflexivity|]); [done|].
  apply flat_map_ext; [done|apply block_nest].
Qed.

(** C4: [flat_map] is associative: executing [m.flat_map(f).flat_map(g)]
    gives what executing [m.flat_map(lambda x: f(x).flat_map(g))] gives, for
    continuations [f] that return a monad or raise.  Likewise for a chain of
    any length: the do-runner turns suspension points in a row into the
    [flat_map] calls nested in source order, and executing that value gives
    what executing [m.flat_map(f1).flat_map(f2)...] gives. *)
Theorem flat_map_associative m f g fs :
  returns_monad f →
  Forall returns_monad fs →
  exec_eq (flat_map (flat_map m f) g)
          (flat_map m (λ x, r ← f x; call_flat_map r g)) ∧
  ∃ c, (∀ w, do_run (do_block m fs) w = (inr (PyMonad c), w)) ∧
       exec_eq c (chain_right m fs) ∧
       exec_eq c (chain_left m fs).
Proof.
  intros Hf Hfs. split; [by apply flat_map_assoc|].
  destruct (do_run_do_block m fs) as (c & Hc & Hright).
  exists c. split_and!; try done.
  intros s w. rewrite (Hright s w). by apply chain_right_left.
Qed.

End FlatMap.

(** ** Suspension points of a do-block *)

Section DoRunner.
Context {W St : Type}.
Implicit Types (m : StateMonad W St) (g : generator W St) (s : St) (w : W).

Lemma execute_yield_monad m resume s w :
  execute (Yield (PyMonad m) resume) s w =
    func (flat_map m (λ x, g' ← resume x; do_run g')) s w.
Proof. reflexivity. Qed.

Lemma execute_yield_plain n (resume : pyobj W St → M W (generator W St))
    s w :
  execute (Yield (PyInt n) resume) s w =
    (inl (AttributeError "int" "flat_map"), w).
Proof. reflexivity. Qed.

(** Executing up to a later point of the do-block and going on from there is
    executing the do-block. *)
Lemma execute_reaches g s w g' s' w' :
  reaches g s w g' s' w' → execute g s w = execute g' s' w'.
Proof.
  induction 1 as [|m resume s w n_state x w1 g1 w2 g' s' w' Hm Hres _ IH];
    [reflexivity|].
  rewrite execute_yield_monad, (flat_map_step _ _ _ _ _ _ _ Hm), <- IH.
  unfold execute. unfold_M. by rewrite Hres.
Qed.

(** C5: wherever a suspension point stands in the chain, when execution
    arrives at it the do-runner accepts an operand that is a [StateMonad]
    (it builds the composed value, raises nothing, and execution goes on
    with that value's [func]) and rejects a plain integer with the
    [AttributeError] for [flat_map], which is then the outcome of the whole
    execution. *)
Theorem suspension_point_capability g s w operand resume s' w' :
  reaches g s w (Yield operand resume) s' w' →
  match operand with
  | PyMonad m =>
      do_run (Yield operand resume) w' =
        (inr (PyMonad (flat_map m (λ x, g' ← resume x; do_run g'))), w') ∧
      execute g s w = func (flat_map m (λ x, g' ← resume x; do_run g')) s' w'
  | PyInt n =>
      do_run (Yield operand resume) w' =
        (inl (AttributeError "int" "flat_map"), w') ∧
      execute g s w = (inl (AttributeError "int" "flat_map"), w')
  end.
Proof.
  intros Hreach. apply execute_reaches in Hreach. rewrite Hreach.
  destruct operand as [n|m]; split; reflexivity.
Qed.

End DoRunner.

(** ** Effects of executing a composed value *)

Section Frame.
Context {W St : Type}.
Implicit Types (m : StateMonad W St) (f g : continuation W St).

Lemma flat_map_steps_in (R : relation W) `{!PreOrder R} m f :
  monad_steps_in R m → cont_steps_in R f → monad_steps_in R (flat_map m f).
Proof.
  intros Hm Hf s w. rewrite func_flat_map. unfold_M.
  specialize (Hm s w). destruct (func m s w) as [[e|[n_state value]] w1];
    simpl in *; [exact Hm|].
  destruct (Hf value) as [Hstep Hnext]. specialize (Hstep w1).
  destruct (f value w1) as [[e|[n|m']] w2] eqn:Hfv; simpl in *;
    [by etrans..|].
  etrans; [exact Hm|]. etrans; [exact Hstep|].
  apply (Hnext _ _ _ Hfv).
Qed.

(** In particular, what can be observed of the world and is left unchanged
    by [m]'s [func], by the continuation and by the monads it returns (such
    as the result of executing another composed value) is left unchanged by
    executing [m.flat_map(f)]. *)
Lemma flat_map_leaves_unchanged {O : Type} (obs : W → O) m f :
  (∀ s w, obs (func m s w).2 = obs w) →
  (∀ v w, obs (f v w).2 = obs w) →
  (∀ v w m' w', f v w = (inr (PyMonad m'), w') →
     ∀ s w0, obs (func m' s w0).2 = obs w0) →
  ∀ s w, obs (func (flat_map m f) s w).2 = obs w.
Proof.
  intros Hm Hf Hnext s w.
  assert (PreOrder (λ w w', obs w' = obs w)) as HR.
  { split; [done|]. intros w1 w2 w3 H12 H23. by rewrite H23. }
  apply (flat_map_steps_in (λ w w', obs w' = obs w) m f); [exact Hm|].
  intros v. split; [exact (Hf v)|].
  intros w1 m' w' Hv s0 w0. exact (Hnext _ _ _ _ Hv s0 w0).
Qed.

(** C7: constructing [m.flat_map(f)] and then [m.flat_map(g)] gives the two
    composed values and leaves the world as it is, so constructing the
    second does not alter the first.  [flat_map] adds no state and no effect
    of its own: whatever bound [R] holds for what [m]'s [func], the
    continuation and the monads it returns do to the world (for instance:
    they leave the result of executing the other composed value unchanged)
    holds for executing the composed value. *)
Theorem flat_map_independent (R : relation W) m f g w :
  PreOrder R →
  monad_steps_in R m → cont_steps_in R f → cont_steps_in R g →
  (a ← call_flat_map (PyMonad m) f;
   b ← call_flat_map (PyMonad m) g;
   mret (a, b)) w =
    (inr (PyMonad (flat_map m f), PyMonad (flat_map m g)), w) ∧
  monad_steps_in R (flat_map m f) ∧
  monad_steps_in R (flat_map m g).
Proof.
  intros HR Hm Hf Hg. split; [reflexivity|].
  split; by apply flat_map_steps_in.
Qed.

End Frame.

(** ** collect_even_numbers *)

Section Collect.
Implicit Types (h new : heap) (state l : loc) (X Y : gset Z) (num : Z).
Implicit Types (m : StateMonad heap loc).

Lemma collect_func_even num h state X :
  Z.even num = true →
  h !! state = Some X →
  func (collect_even_numbers num) state h =
    (inr (length h, PyInt num), h ++ [X ∪ {[num]}]).
Proof.
  intros Heven Hstate. simpl. unfold_M.
  rewrite bool_decide_eq_true_2 by (by rewrite Zmod_even, Heven).
  unfold set_or. by rewrite Hstate.
Qed.

Lemma collect_func_odd num h state :
  Z.even num = false →
  func (collect_even_numbers num) state h = (inr (state, PyInt num), h).
Proof.
  intros Hodd. simpl. unfold_M.
  by rewrite bool_decide_eq_false_2 by (by rewrite Zmod_even, Hodd).
Qed.

Lemma lookup_new h X : (h ++ [X]) !! length h = Some X.
Proof. by apply list_lookup_middle. Qed.

Lemma lookup_old h new l X : h !! l = Some X → (h ++ new) !! l = Some X.
Proof. apply lookup_app_l_Some. Qed.

(** C10: on a set [state] with contents [X], [collect_even_numbers(num).func]
    returns the value [num] with a state whose contents are [X ∪ {num}] when
    [num] is even and [X] when it is odd, hence a superset of [X].  It
    changes no set object that existed: for an odd [num] it returns [state]
    itself and leaves the heap as it is, for an even [num] the returned
    state is a new object. *)
Theorem collect_even_numbers_func num h state X :
  h !! state = Some X →
  ∃ state' h',
    func (collect_even_numbers num) state h = (inr (state', PyInt num), h') ∧
    h' !! state' = Some (if Z.even num then X ∪ {[num]} else X) ∧
    X ⊆ (if Z.even num then X ∪ {[num]} else X) ∧
    h' !! state = Some X ∧
    (∀ l Y, h !! l = Some Y → h' !! l = Some Y) ∧
    (if Z.even num
     then state' = length h ∧ state' ≠ state ∧ h' = h ++ [X ∪ {[num]}]
     else state' = state ∧ h' = h).
Proof.
  intros Hstate. destruct (Z.even num) eqn:Hnum.
  - exists (length h), (h ++ [X ∪ {[num]}]).
    rewrite (collect_func_even _ _ _ _ Hnum Hstate).
    split_and!; try done.
    + apply lookup_new.
    + set_solver.
    + by apply lookup_old.
    + intros l Y. apply lookup_old.
    + apply lookup_lt_Some in Hstate. lia.
  - exists state, h. rewrite (collect_func_odd _ _ _ Hnum). done.
Qed.

(** *** Executing a value of the family *)

(** What a value of the family does depends on the contents of the set it
    starts from alone, and all it does to the heap is allocate new sets. *)
Lemma collector_sim m :
  collector m →
  ∀ h1 l1 h2 l2 X,
    h1 !! l1 = Some X → h2 !! l2 = Some X →
    ∃ new,
      (func m l1 h1).2 = h1 ++ new ∧ (func m l2 h2).2 = h2 ++ new ∧
      agree X (func m l1 h1) (func m l2 h2).
Proof.
  induction 1 as [num|m f r _ IHm Hf _ IHr]; intros h1 l1 h2 l2 X H1 H2.
  - destruct (Z.even num) eqn:Hnum.
    + exists [X ∪ {[num]}].
      rewrite (collect_func_even _ _ _ _ Hnum H1),
        (collect_func_even _ _ _ _ Hnum H2).
      split_and!; try done. split; [done|].
      exists (X ∪ {[num]}). simpl. rewrite !lookup_new. set_solver.
    + exists []. rewrite !(collect_func_odd _ _ _ Hnum), !app_nil_r.
      split_and!; try done. split; [done|]. by exists X.
  - destruct (IHm _ _ _ _ _ H1 H2) as (new1 & E1 & E2 & Hagree).
    rewrite !func_flat_map. unfold_M. unfold agree in Hagree.
    destruct (func m l1 h1) as [[e1|[l1' v1]] h1'],
      (func m l2 h2) as [[e2|[l2' v2]] h2']; simpl in *; try done.
    { exists new1. by rewrite E1, E2. }
    destruct Hagree as (<- & Y & HY1 & HY2 & HXY). subst h1' h2'.
    rewrite !Hf. destruct (r v1) as [e|[n|m']] eqn:Hr; simpl.
    + by exists new1.
    + by exists new1.
    + destruct (IHr _ _ Hr _ _ _ _ _ HY1 HY2) as (new2 & E1 & E2 & Hagree).
      exists (new1 ++ new2). rewrite E1, E2, !app_assoc.
      split_and!; try done. unfold agree in *.
      destruct (func m' l1' (h1 ++ new1)) as [[?|[??]] ?],
        (func m' l2' (h2 ++ new1)) as [[?|[??]] ?]; simpl in *; try done.
      destruct Hagree as (-> & Z' & ? & ? & ?). split; [done|].
      exists Z'. split_and!; try done. set_solver.
Qed.

Lemma agree_observe X r1 r2 : agree X r1 r2 → observe r1 = observe r2.
Proof.
  unfold agree, observe. destruct r1 as [[?|[??]] ?], r2 as [[?|[??]] ?];
    simpl; try done; [by intros ->|].
  by intros (-> & Y & -> & -> & _).
Qed.

End Collect.

(** ** Executing a composed value again *)

Section Rerun.
Implicit Types (h new : heap) (state l : loc) (X Y : gset Z).
Implicit Types (m : StateMonad heap loc).

(** Executing a value of the family on a set of the same contents, in a heap
    that has grown, gives the same observable result and allocates the same
    sets. *)
Lemma collector_again m h state X h' state' :
  collector m →
  h !! state = Some X →
  h' !! state' = Some X →
  ∃ new,
    (func m state h).2 = h ++ new ∧
    (func m state' h').2 = h' ++ new ∧
    observe (func m state' h') = observe (func m state h).
Proof.
  intros Hm Hstate Hstate'.
  destruct (collector_sim m Hm _ _ _ _ _ Hstate Hstate')
    as (new & E1 & E2 & Ha).
  exists new. split_and!; try done. symmetry. by eapply agree_observe.
Qed.

(** C9, for the example's family: executing a composed value of the family
    twice on the same set runs it from scratch both times: the second
    execution allocates again the sets the first one allocated ([new]),
    returns the same value with a state of the same contents, and finds the
    set it starts from unchanged by the first. *)
Theorem rerun_same_result m h state X :
  collector m →
  h !! state = Some X →
  ∃ new,
    (func m state h).2 = h ++ new ∧
    (func m state (func m state h).2).2 = (h ++ new) ++ new ∧
    observe (func m state (func m state h).2) = observe (func m state h) ∧
    (func m state h).2 !! state = Some X.
Proof.
  intros Hm Hstate.
  destruct (collector_again m h state X h state Hm Hstate Hstate)
    as (new & E & _ & _).
  assert ((h ++ new) !! state = Some X) as Hstate' by by apply lookup_old.
  destruct (collector_again m h state X (h ++ new) state Hm Hstate Hstate')
    as (new' & E' & E2 & Hobs).
  rewrite E in E'. apply app_inv_head in E'. subst new'.
  exists new. rewrite E. done.
Qed.

(** C9 fails for a composed value whose parts have an effect of their own:
    [ticket.flat_map(unit)] executed twice on the same state returns the
    value 0 the first time and the value 1 the second time, since each run
    calls [ticket]'s [func] again. *)
Lemma ticket_rerun_differs :
  (func (flat_map ticket unit_monad) () 0%nat).1 = inr ((), PyInt 0) ∧
  (func (flat_map ticket unit_monad) ()
     (func (flat_map ticket unit_monad) () 0%nat).2).1 = inr ((), PyInt 1).
Proof. split; reflexivity. Qed.

End Rerun.

(** ** The example *)

Section Example.
Implicit Types (h : heap) (state : loc) (X : gset Z) (init : Z).

(** Whatever [init] is, the second suspension point of [example] yields the
    integer [init+1+1]: the execution ends there, after the first point has
    run. *)
Lemma example_run init h state X :
  h !! state = Some X →
  ∃ c, example init h = (inr (PyMonad c), h) ∧
       func c state h =
         (inl (AttributeError "int" "flat_map"),
          if Z.even (init + 1) then h ++ [X ∪ {[init + 1]}] else h).
Proof.
  intros Hstate. eexists. split; [reflexivity|].
  destruct (Z.even (init + 1)) eqn:Hinit.
  - by rewrite (flat_map_step _ _ _ _ _ _ _
      (collect_func_even _ _ _ _ Hinit Hstate)).
  - by rewrite (flat_map_step _ _ _ _ _ _ _ (collect_func_odd _ _ _ Hinit)).
Qed.

(** C2: calling [example(3)] returns a composed value and touches nothing;
    executing that value on a set runs [collect_even_numbers(4)], which
    allocates the set with 4 added, and then ends with the
    [AttributeError] that an [int] has no [flat_map]: no (state, value) pair
    is returned, and the exception reaches the caller as it was raised. *)
Theorem example_raises h state X :
  h !! state = Some X →
  ∃ c, example 3 h = (inr (PyMonad c), h) ∧
       func c state h =
         (inl (AttributeError "int" "flat_map"), h ++ [X ∪ {[4]}]).
Proof. intros Hstate. exact (example_run 3 h state X Hstate). Qed.

(** The composed values of the example and of its variants belong to the
    family. *)
Lemma example_collector init :
  ∃ c, (∀ h, example init h = (inr (PyMonad c), h)) ∧ collector c.
Proof.
  eexists. split; [reflexivity|].
  eapply (collector_bind _ _ (λ x, match x with
    | PyInt n => inl (AttributeError "int" "flat_map")
    | PyMonad _ => inl (TypeError "unsupported operand type(s) for +")
    end)); [constructor|by intros [n|m] h|by intros [n|m] m'].
Qed.

Lemma example_non_error_collector :
  ∃ c, (∀ h, example_non_error 3 h = (inr (PyMonad c), h)) ∧ collector c.
Proof.
  eexists. split; [reflexivity|].
  eapply (collector_bind _ _ (λ x, match x with
    | PyInt n => inr (PyMonad (flat_map (collect_even_numbers (n + 1 + 1))
        (λ z, g' ← (z1 ← add_int z 1;
                    mret (Return (PyMonad (collect_even_numbers z1))));
              do_run g')))
    | PyMonad _ => inl (TypeError "unsupported operand type(s) for +")
    end)); [constructor|by intros [n|m] h|].
  intros [n|m] m' [= <-].
  eapply (collector_bind _ _ (λ z, match z with
    | PyInt n => inr (PyMonad (collect_even_numbers (n + 1)))
    | PyMonad _ => inl (TypeError "unsupported operand type(s) for +")
    end)); [constructor|by intros [k|m] h|].
  intros [k|m] m' [= <-]. constructor.
Qed.

Lemma example_conforming_collector :
  ∃ c, (∀ h, example_conforming 3 h = (inr (PyMonad c), h)) ∧ collector c.
Proof.
  eexists. split; [reflexivity|].
  eapply (collector_bind _ _ (λ x, match x with
    | PyInt n => inr (PyMonad (flat_map (collect_even_numbers (n + 1))
        (λ y, g' ← (y1 ← add_int y 1;
                    mret (Yield (PyMonad (collect_even_numbers y1)) (λ z,
                      z1 ← add_int z 1;
                      mret (Return (PyMonad (collect_even_numbers z1))))));
              do_run g')))
    | PyMonad _ => inl (TypeError "unsupported operand type(s) for +")
    end)); [constructor|by intros [n|m] h|].
  intros [n|m] m' [= <-].
  eapply (collector_bind _ _ (λ y, match y with
    | PyInt n => inr (PyMonad (flat_map (collect_even_numbers (n + 1))
        (λ z, g' ← (z1 ← add_int z 1;
                    mret (Return (PyMonad (collect_even_numbers z1))));
              do_run g')))
    | PyMonad _ => inl (TypeError "unsupported operand type(s) for +")
    end)); [constructor|by intros [k|m] h|].
  intros [k|m] m' [= <-].
  eapply (collector_bind _ _ (λ z, match z with
    | PyInt n => inr (PyMonad (collect_even_numbers (n + 1)))
    | PyMonad _ => inl (TypeError "unsupported operand type(s) for +")
    end)); [constructor|by intros [j|m] h|].
  intros [j|m] m' [= <-]. constructor.
Qed.

(** C3, for the non-error variants: the example that binds [x+1] without
    suspending on it, and the example that suspends on
    [collect_even_numbers(x+1)], executed for input 3 on an empty set, return
    the value 7 and a set with contents {4, 6}. *)
Theorem example_non_error_result h state :
  h !! state = Some ∅ →
  (∃ c, example_non_error 3 h = (inr (PyMonad c), h) ∧
        observe (func c state h) = inr (Some {[4; 6]}, PyInt 7)) ∧
  (∃ c, example_conforming 3 h = (inr (PyMonad c), h) ∧
        observe (func c state h) = inr (Some {[4; 6]}, PyInt 7)).
Proof.
  intros Hstate. split.
  - destruct example_non_error_collector as (c & Hc & Hcoll).
    exists c. split; [apply Hc|].
    destruct (collector_again c [∅] 0%nat ∅ h state Hcoll eq_refl Hstate)
      as (_ & _ & _ & ->).
    specialize (Hc []). injection Hc as <-. vm_compute. reflexivity.
  - destruct example_conforming_collector as (c & Hc & Hcoll).
    exists c. split; [apply Hc|].
    destruct (collector_again c [∅] 0%nat ∅ h state Hcoll eq_refl Hstate)
      as (_ & _ & _ & ->).
    specialize (Hc []). injection Hc as <-. vm_compute. reflexivity.
Qed.

(** C3 fails for [example] as the source has it: the module's call
    [example(3).func(state)] on a new empty set returns no pair, it raises
    after the set with 4 added has been allocated. *)
Lemma script_returns_no_pair :
  script [] = (inl (AttributeError "int" "flat_map"), [∅; ∅ ∪ {[4]}]).
Proof. reflexivity. Qed.

End Example.

(** ** Independence, in the example's family and outside it *)

Section Independence.
Implicit Types (h : heap) (state : loc) (m : StateMonad heap loc).

Lemma pure_cont_steps_in (f : continuation heap loc) r :
  (∀ v h, f v h = (r v, h)) →
  (∀ v m', r v = inr (PyMonad m') → monad_steps_in prefix m') →
  cont_steps_in prefix f.
Proof.
  intros Hf Hr v. split.
  - intros h. by rewrite Hf.
  - intros h m' h'. rewrite Hf. intros [= Hv <-]. by eapply Hr.
Qed.

(** Executing a value of the family only adds sets to the heap. *)
Lemma collector_extends m : collector m → monad_steps_in prefix m.
Proof.
  induction 1 as [num|m f r _ IHm Hf _ IHr].
  - intros state h. simpl. unfold_M. case_bool_decide; [|done].
    unfold set_or. destruct (h !! state); simpl; [|done].
    by apply prefix_app_r.
  - apply flat_map_steps_in; [apply _|done|]. by eapply pure_cont_steps_in.
Qed.


(** C7 fails for a monad whose [func] has an effect of its own: [ticket]
    counts its calls, so executing [ticket.flat_map(f)] changes the result
    of executing [ticket.flat_map(g)], and of executing [ticket], on the
    same state. *)
Lemma ticket_not_independent :
  (func (flat_map ticket unit_monad) () 0%nat).1 = inr ((), PyInt 0) ∧
  (func (flat_map ticket unit_monad) ()
     (func (flat_map ticket (λ _, unit_monad (PyInt 0))) () 0%nat).2).1 =
    inr ((), PyInt 1) ∧
  (func ticket () 0%nat).1 = inr ((), PyInt 0) ∧
  (func ticket ()
     (func (flat_map ticket (λ _, unit_monad (PyInt 0))) () 0%nat).2).1 =
    inr ((), PyInt 1).
Proof. repeat split. Qed.

End Independence.

(** ** Instances *)

Section Instances.

Lemma then_collect_6_returns_monad : returns_monad then_collect_6.
Proof. by intros v w n w'. Qed.

Lemma then_collect_6_steps_in : cont_steps_in prefix then_collect_6.
Proof.
  apply (pure_cont_steps_in _ (λ _, inr (PyMonad (collect_even_numbers 6))));
    [done|].
  intros _ m' [= <-]. apply collector_extends. constructor.
Qed.

Lemma collect_4_then_6_collector : collector collect_4_then_6.
Proof.
  apply (collector_bind _ _ (λ _, inr (PyMonad (collect_even_numbers 6))));
    [constructor|done|].
  intros _ m' [= <-]. constructor.
Qed.

Lemma flat_map_executes_witness :
  func collect_4_then_6 0%nat [∅] =
    func (collect_even_numbers 6) 1%nat [∅; ∅ ∪ {[4]}].
Proof.
  apply (flat_map_executes (collect_even_numbers 4) then_collect_6
           0%nat [∅] 1%nat (PyInt 4) [∅; ∅ ∪ {[4]}]
           (collect_even_numbers 6) [∅; ∅ ∪ {[4]}]); reflexivity.
Defined.

Lemma flat_map_propagates_witness :
  func
    (flat_map (collect_even_numbers 4) (λ _, raise (Exception "ValueError")))
    0%nat [∅] = (inl (Exception "ValueError"), [∅; ∅ ∪ {[4]}]).
Proof.
  apply (flat_map_propagates (collect_even_numbers 4)
           (λ _, raise (Exception "ValueError"))
           0%nat [∅] 1%nat (PyInt 4) [∅; ∅ ∪ {[4]}]); [reflexivity|].
  left. reflexivity.
Defined.

Lemma flat_map_associative_witness :
  exec_eq
    (flat_map (flat_map (collect_even_numbers 4) then_collect_6) unit_monad)
    (flat_map (collect_even_numbers 4)
       (λ x, r ← then_collect_6 x; call_flat_map r unit_monad)) ∧
  ∃ c,
    (∀ w,
       do_run
         (do_block (collect_even_numbers 4) [then_collect_6; unit_monad]) w =
         (inr (PyMonad c), w)) ∧
    exec_eq c
      (chain_right (collect_even_numbers 4) [then_collect_6; unit_monad]) ∧
    exec_eq c
      (chain_left (collect_even_numbers 4) [then_collect_6; unit_monad]).
Proof.
  apply (flat_map_associative (collect_even_numbers 4) then_collect_6
           unit_monad [then_collect_6; unit_monad]).
  - exact then_collect_6_returns_monad.
  - repeat constructor; [exact then_collect_6_returns_monad|].
    by intros v w n w'.
Defined.

Lemma suspension_point_capability_witness :
  do_run (Yield (PyInt 5) (λ y : pyobj heap loc, mret (Return y)))
    [∅; ∅ ∪ {[4]}] =
    (inl (AttributeError "int" "flat_map"), [∅; ∅ ∪ {[4]}]) ∧
  execute
    (Yield (PyMonad (collect_even_numbers 4)) (λ x,
       x1 ← add_int x 1;
       mret (Yield (PyInt x1) (λ y, mret (Return y)))))
    0%nat [∅] =
    (inl (AttributeError "int" "flat_map"), [∅; ∅ ∪ {[4]}]).
Proof.
  apply (suspension_point_capability
           (Yield (PyMonad (collect_even_numbers 4)) (λ x,
              x1 ← add_int x 1;
              mret (Yield (PyInt x1) (λ y, mret (Return y)))))
           0%nat [∅] (PyInt 5) (λ y, mret (Return y)) 1%nat [∅; ∅ ∪ {[4]}]).
  eapply reaches_next; [reflexivity|reflexivity|apply reaches_here].
Defined.

Lemma flat_map_independent_witness :
  (a ← call_flat_map (PyMonad (collect_even_numbers 4)) then_collect_6;
   b ← call_flat_map (PyMonad (collect_even_numbers 4)) unit_monad;
   mret (a, b)) [∅] =
    (inr (PyMonad (flat_map (collect_even_numbers 4) then_collect_6),
          PyMonad (flat_map (collect_even_numbers 4) unit_monad)), [∅]) ∧
  monad_steps_in prefix (flat_map (collect_even_numbers 4) then_collect_6) ∧
  monad_steps_in prefix (flat_map (collect_even_numbers 4) unit_monad).
Proof.
  apply (flat_map_independent prefix (collect_even_numbers 4)
           then_collect_6 unit_monad [∅]).
  - apply _.
  - apply collector_extends. constructor.
  - exact then_collect_6_steps_in.
  - intros v. split; [by intros h|].
    intros h m' h' [= <- <-] state h2. done.
Defined.

Lemma rerun_same_result_witness :
  ∃ new,
    (func collect_4_then_6 0%nat [∅]).2 = [∅] ++ new ∧
    (func collect_4_then_6 0%nat (func collect_4_then_6 0%nat [∅]).2).2 =
      ([∅] ++ new) ++ new ∧
    observe (func collect_4_then_6 0%nat (func collect_4_then_6 0%nat [∅]).2) =
      observe (func collect_4_then_6 0%nat [∅]) ∧
    (func collect_4_then_6 0%nat [∅]).2 !! 0%nat = Some ∅.
Proof.
  apply (rerun_same_result collect_4_then_6 [∅] 0%nat ∅);
    [exact collect_4_then_6_collector|reflexivity].
Defined.

Lemma collect_even_numbers_func_witness :
  ∃ state' h',
    func (collect_even_numbers 4) 0%nat [∅] = (inr (state', PyInt 4), h') ∧
    h' !! state' = Some (∅ ∪ {[4]}) ∧
    (∅ : gset Z) ⊆ ∅ ∪ {[4]} ∧
    h' !! 0%nat = Some ∅ ∧
    (∀ l Y, [∅] !! l = Some Y → h' !! l = Some Y) ∧
    (state' = 1%nat ∧ state' ≠ 0%nat ∧ h' = [∅] ++ [∅ ∪ {[4]}]).
Proof. apply (collect_even_numbers_func 4 [∅] 0%nat ∅). reflexivity. Defined.

Lemma example_raises_witness :
  ∃ c, example 3 [∅] = (inr (PyMonad c), [∅]) ∧
       func c 0%nat [∅] =
         (inl (AttributeError "int" "flat_map"), [∅] ++ [∅ ∪ {[4]}]).
Proof. apply (example_raises [∅] 0%nat ∅). reflexivity. Defined.

Lemma example_non_error_result_witness :
  (∃ c, example_non_error 3 [∅] = (inr (PyMonad c), [∅]) ∧
        observe (func c 0%nat [∅]) = inr (Some {[4; 6]}, PyInt 7)) ∧
  (∃ c, example_conforming 3 [∅] = (inr (PyMonad c), [∅]) ∧
        observe (func c 0%nat [∅]) = inr (Some {[4; 6]}, PyInt 7)).
Proof. apply (example_non_error_result [∅] 0%nat). reflexivity. Defined.

End Instances.

(** * Further properties of the code *)

(** ** flat_map: what the continuation returns, and the unit *)

Section FlatMapEdges.
Context {W St : Type}.
Implicit Types (m : StateMonad W St) (f g : continuation W St).
Implicit Types (s : St) (w : W).

(** When the continuation returns a plain integer where a monad is expected,
    [func(value).func(n_state)] fails on the attribute lookup: executing
    [m.flat_map(f)] raises the [AttributeError] for [func], after [m]'s
    [func] and the continuation have run. *)
Theorem flat_map_plain_result m f s w n_state value w1 n w2 :
  func m s w = (inr (n_state, value), w1) →
  f value w1 = (inr (PyInt n), w2) →
  func (flat_map m f) s w = (inl (AttributeError "int" "func"), w2).
Proof.
  intros Hm Hf. rewrite (flat_map_step _ _ _ _ _ _ _ Hm).
  unfold_M. by rewrite Hf.
Qed.

(** The monad that returns [v] and passes the state on is a unit of
    [flat_map] on both sides: binding it after [m] behaves as [m], and
    binding [f] after it is executing what [f(v)] returns. *)
Theorem flat_map_unit m f (v : pyobj W St) :
  exec_eq (flat_map m unit_monad) m ∧
  ∀ s w,
    func (flat_map (StateMonad_init (λ state, mret (state, v))) f) s w =
      (r ← f v; call_func r s) w.
Proof.
  split; [|reflexivity]. intros s w. rewrite func_flat_map. unfold_M.
  by destruct (func m s w) as [[e|[n_state value]] w1].
Qed.

End FlatMapEdges.

(** ** collect_even_numbers: chains *)

Section CollectAll.
Implicit Types (h new : heap) (state l : loc) (X Y : gset Z) (n k num : Z).
Implicit Types (ns : list Z) (m : StateMonad heap loc).

Lemma collect_all_snoc n ns k :
  collect_all n (ns ++ [k]) = flat_map (collect_all n ns) (then_collect k).
Proof. unfold collect_all. by rewrite foldl_snoc. Qed.

Lemma evens_snoc ns k :
  evens (ns ++ [k]) = if Z.even k then evens ns ∪ {[k]} else evens ns.
Proof.
  unfold evens. rewrite filter_app, list_to_set_app_L.
  destruct (Z.even k) eqn:Hk.
  - rewrite filter_cons_True by done. simpl. by rewrite (right_id_L ∅ (∪)).
  - rewrite filter_cons_False by (by rewrite Hk). simpl.
    by rewrite (right_id_L ∅ (∪)).
Qed.

Lemma collect_all_run n ns h state X :
  h !! state = Some X →
  ∃ state' new,
    func (collect_all n ns) state h =
      (inr (state', PyInt (default n (last ns))), h ++ new) ∧
    (h ++ new) !! state' = Some (X ∪ evens (n :: ns)) ∧
    length new = length (filter (λ k, Z.even k = true) (n :: ns)).
Proof.
  intros Hstate. induction ns as [|k ns IH] using rev_ind.
  - change (collect_all n []) with (collect_even_numbers n).
    change (n :: []) with ([] ++ [n]). rewrite evens_snoc, filter_app.
    destruct (Z.even n) eqn:Hn.
    + exists (length h), [X ∪ {[n]}].
      rewrite (collect_func_even _ _ _ _ Hn Hstate), lookup_new.
      rewrite filter_cons_True by done. split_and!; try done.
      f_equal. unfold evens. simpl. by rewrite (left_id_L ∅ (∪)).
    + exists state, []. rewrite (collect_func_odd _ _ _ Hn), app_nil_r.
      rewrite filter_cons_False by (by rewrite Hn).
      split_and!; try done. rewrite Hstate. f_equal. unfold evens. simpl.
      by rewrite (right_id_L ∅ (∪)).
  - destruct IH as (state1 & new1 & Hrun & Hlook & Hlen).
    rewrite collect_all_snoc, (flat_map_step _ _ _ _ _ _ _ Hrun), last_snoc.
    change ((r ← then_collect k _; call_func r state1) (h ++ new1)) with
      (func (collect_even_numbers k) state1 (h ++ new1)).
    rewrite app_comm_cons, evens_snoc, filter_app, length_app, <- Hlen.
    destruct (Z.even k) eqn:Hk.
    + exists (length (h ++ new1)), (new1 ++ [X ∪ evens (n :: ns) ∪ {[k]}]).
      rewrite (collect_func_even _ _ _ _ Hk Hlook), app_assoc, lookup_new.
      rewrite filter_cons_True by done.
      split_and!; [done|by rewrite (assoc_L (∪))|by rewrite length_app].
    + exists state1, new1. rewrite (collect_func_odd _ _ _ Hk).
      rewrite filter_cons_False by (by rewrite Hk).
      split_and!; [done|done|simpl; lia].
Qed.

(** Collecting [n :: ns] one after the other on a set with contents [X]
    returns the last number as value and a state with contents [X] and the
    even numbers among [n :: ns]; it allocates one set for each even number
    and changes no existing one. *)
Theorem collect_all_result n ns h state X :
  h !! state = Some X →
  ∃ state' new,
    func (collect_all n ns) state h =
      (inr (state', PyInt (default n (last ns))), h ++ new) ∧
    (h ++ new) !! state' = Some (X ∪ evens (n :: ns)) ∧
    length new = length (filter (λ k, Z.even k = true) (n :: ns)).
Proof. apply collect_all_run. Qed.

(** The set that comes out of collecting does not depend on the order of the
    numbers: two chains over the same numbers, in any order, end in states
    of the same contents (their values are the last number of each). *)
Theorem collect_all_any_order n ns n' ns' h state X :
  h !! state = Some X →
  n :: ns ≡ₚ n' :: ns' →
  observe (func (collect_all n ns) state h) =
    inr (Some (X ∪ evens (n :: ns)), PyInt (default n (last ns))) ∧
  observe (func (collect_all n' ns') state h) =
    inr (Some (X ∪ evens (n :: ns)), PyInt (default n' (last ns'))).
Proof.
  intros Hstate Hperm.
  destruct (collect_all_run n ns h state X Hstate)
    as (l1 & new1 & E1 & L1 & _).
  destruct (collect_all_run n' ns' h state X Hstate)
    as (l2 & new2 & E2 & L2 & _).
  rewrite E1, E2. unfold observe. rewrite L1, L2. split; [done|].
  assert (evens (n' :: ns') = evens (n :: ns)) as ->; [|done].
  unfold evens. apply list_to_set_perm_L. by rewrite Hperm.
Qed.

(** Along any composed value of the family the collected set only grows, and
    only by even numbers: the state returned holds the contents of the set
    the execution started from and, beyond them, even numbers only.  The
    value returned is an integer, and the heap is extended, never changed. *)
Theorem collector_only_adds_evens m h state X state' v h' :
  collector m →
  h !! state = Some X →
  func m state h = (inr (state', v), h') →
  ∃ Y n,
    h' !! state' = Some Y ∧ X ⊆ Y ∧
    (∀ z, z ∈ Y → z ∈ X ∨ Z.even z = true) ∧
    v = PyInt n ∧ h `prefix_of` h'.
Proof.
  intros Hm. revert h state X state' v h'.
  induction Hm as [num|m f r _ IHm Hf _ IHr];
    intros h state X state' v h' Hstate Hrun.
  - destruct (Z.even num) eqn:Hnum.
    + rewrite (collect_func_even _ _ _ _ Hnum Hstate) in Hrun.
      injection Hrun as <- <- <-. exists (X ∪ {[num]}), num.
      rewrite lookup_new. split_and!; try done.
      * apply union_subseteq_l.
      * intros z [Hz| ->%elem_of_singleton]%elem_of_union; auto.
      * by apply prefix_app_r.
    + rewrite (collect_func_odd _ _ _ Hnum) in Hrun.
      injection Hrun as <- <- <-. exists X, num. split_and!; try done.
      set_solver.
  - rewrite func_flat_map in Hrun. unfold_M.
    destruct (func m state h) as [[e|[l1 v1]] h1] eqn:E1; [done|].
    rewrite Hf in Hrun. destruct (r v1) as [e|[k|m']] eqn:Hr; try done.
    destruct (IHm _ _ _ _ _ _ Hstate E1) as (Y1 & n1 & HY1 & HX1 & Hev1 & _ & Hp1).
    destruct (IHr _ _ Hr _ _ _ _ _ _ HY1 Hrun) as (Y & n & HY & HX & Hev & -> & Hp).
    exists Y, n. split_and!; try done; [set_solver| |by etrans].
    intros z Hz. destruct (Hev z Hz) as [Hz1|Hz1]; [|by right].
    apply Hev1, Hz1.
Qed.


End CollectAll.

(** ** Instances of the further properties *)

Section FurtherInstances.

Lemma flat_map_raises_first_witness :
  func
    (flat_map (StateMonad_init (λ _ : loc, raise (Exception "ValueError")))
       then_collect_6)
    0%nat [∅] = (inl (Exception "ValueError"), [∅]).
Proof.
  apply (flat_map_raises_first
           (StateMonad_init (λ _ : loc, raise (Exception "ValueError")))
           then_collect_6 0%nat [∅] (Exception "ValueError") [∅]).
  reflexivity.
Defined.

Lemma flat_map_plain_result_witness :
  func (flat_map (collect_even_numbers 4) (λ v, mret v)) 0%nat [∅] =
    (inl (AttributeError "int" "func"), [∅; ∅ ∪ {[4]}]).
Proof.
  apply (flat_map_plain_result (collect_even_numbers 4) (λ v, mret v)
           0%nat [∅] 1%nat (PyInt 4) [∅; ∅ ∪ {[4]}] 4 [∅; ∅ ∪ {[4]}]);
    reflexivity.
Defined.

Lemma flat_map_assoc_plain_witness :
  func
    (flat_map (flat_map (collect_even_numbers 4) (λ v, mret v)) then_collect_6)
    0%nat [∅] = (inl (AttributeError "int" "func"), [∅; ∅ ∪ {[4]}]) ∧
  func
    (flat_map (collect_even_numbers 4)
       (λ x, r ← mret x; call_flat_map r then_collect_6))
    0%nat [∅] = (inl (AttributeError "int" "flat_map"), [∅; ∅ ∪ {[4]}]).
Proof.
  apply (flat_map_assoc_plain (collect_even_numbers 4) (λ v, mret v)
           then_collect_6 0%nat [∅] 1%nat (PyInt 4) [∅; ∅ ∪ {[4]}] 4
           [∅; ∅ ∪ {[4]}]); reflexivity.
Defined.

Lemma collect_all_result_witness :
  ∃ state' new,
    func (collect_all 4 [5; 6; 7]) 0%nat [∅] =
      (inr (state', PyInt 7), [∅] ++ new) ∧
    ([∅] ++ new) !! state' = Some (∅ ∪ evens [4; 5; 6; 7]) ∧
    length new = length (filter (λ k, Z.even k = true) [4; 5; 6; 7]).
Proof. apply (collect_all_result 4 [5; 6; 7] [∅] 0%nat ∅). reflexivity. Defined.

Lemma collect_all_any_order_witness :
  observe (func (collect_all 4 [5; 6]) 0%nat [∅]) =
    inr (Some (∅ ∪ evens [4; 5; 6]), PyInt 6) ∧
  observe (func (collect_all 6 [5; 4]) 0%nat [∅]) =
    inr (Some (∅ ∪ evens [4; 5; 6]), PyInt 4).
Proof.
  apply (collect_all_any_order 4 [5; 6] 6 [5; 4] [∅] 0%nat ∅); [reflexivity|].
  exact (Permutation_rev [4; 5; 6]).
Defined.

Lemma collector_only_adds_evens_witness :
  ∃ Y n,
    ([∅; ∅ ∪ {[4]}; ∅ ∪ {[4]} ∪ {[6]}] : heap) !! 2%nat = Some Y ∧
    (∅ : gset Z) ⊆ Y ∧
    (∀ z, z ∈ Y → z ∈ (∅ : gset Z) ∨ Z.even z = true) ∧
    PyInt (W:=heap) (St:=loc) 6 = PyInt n ∧
    ([∅] : heap) `prefix_of` [∅; ∅ ∪ {[4]}; ∅ ∪ {[4]} ∪ {[6]}].
Proof.
  apply (collector_only_adds_evens collect_4_then_6 [∅] 0%nat ∅ 2%nat
           (PyInt 6) [∅; ∅ ∪ {[4]}; ∅ ∪ {[4]} ∪ {[6]}]);
    [exact collect_4_then_6_collector|reflexivity|reflexivity].
Defined.



End FurtherInstances.
